(** * slack-chatgpt: the message handler of [app/main.py]

    A shallow embedding of the four functions of [app/main.py]
    ([delete_prefix], [should_run_completion], [create_messages],
    [run_completion]) and the properties the specification states about
    them.

    Python strings are modelled as [string], the UTF-8 bytes of the text:
    [startswith], [in] and [replace] find the same matches on the bytes as
    on the code points, since an encoded needle only matches at a code
    point boundary.  Slack event and message dictionaries are
    [gmap string string], a missing key raising [KeyError].  The calls to
    the Slack Web API and to the completion endpoint are the constructors
    of a free monad; handler code is run against an arbitrary [world] that
    answers each call, by an exception or a response, knowing the calls
    made so far, and the run records the calls in order. *)

From Stdlib Require Import String Ascii List Arith Lia.
From stdpp Require Import gmap strings.
From Equations Require Import Equations.
Import ListNotations.
Open Scope string_scope.
Open Scope list_scope.

(** * Python string primitives *)

(** [s.startswith(prefix)] *)
Fixpoint startswith (s prefix : string) : bool :=
  match prefix, s with
  | EmptyString, _ => true
  | String _ _, EmptyString => false
  | String a prefix', String b s' =>
      if Ascii.eqb a b then startswith s' prefix' else false
  end.

(** [sub in s] *)
Fixpoint str_in (sub s : string) : bool :=
  startswith s sub ||
  match s with
  | EmptyString => false
  | String _ s' => str_in sub s'
  end.

(** The left-to-right scan of [s.replace(old, new)] for a non-empty [old]:
    at a position where [old] starts, [new] is emitted and the scan jumps
    over [old] ([skip] counts the characters of the match still to jump);
    elsewhere the character is copied. *)
Fixpoint replace_from (old new : string) (skip : nat) (s : string) : string :=
  match s with
  | EmptyString => EmptyString
  | String c s' =>
      match skip with
      | S k => replace_from old new k s'
      | O =>
          if startswith s old
          then new +:+ replace_from old new (String.length old - 1) s'
          else String c (replace_from old new 0 s')
      end
  end.

(** With an empty [old], Python puts [new] before every character and at
    the end. *)
Fixpoint interleave (new s : string) : string :=
  match s with
  | EmptyString => EmptyString
  | String c s' => String c (new +:+ interleave new s')
  end.

(** Whether character [c] occurs in [s]. *)
Fixpoint occurs (c : ascii) (s : string) : bool :=
  match s with
  | EmptyString => false
  | String b s' => Ascii.eqb c b || occurs c s'
  end.

(** How many of the characters [delete_prefix] strips, space and newline,
    occur somewhere in [s]. *)
Definition remaining (s : string) : nat :=
  (if occurs " " s then 1 else 0) + (if occurs "010" s then 1 else 0).

(** [s.replace(old, new)] *)
Definition replace (s old new : string) : string :=
  match old with
  | EmptyString => new +:+ interleave new s
  | String _ _ => replace_from old new 0 s
  end.

(** The one-character string ['\n']. *)
Definition newline : string := String "010"%char EmptyString.

(** A value together with the equation that names it, to keep the outcome
    of a test available in the branches of a definition. *)
Definition inspect {A : Type} (a : A) : {b : A | a = b} := exist _ a eq_refl.

(** * External collaborators *)

Inductive exn : Type :=
| KeyError (key : string)
| IndexError
| ApiError (reason : string).

(** What the handler reads of the responses of the Slack Web API.  A call
    that returns (slack_sdk raises when the API reports an error) carries
    the body the API documents: [thread['messages']] for a thread fetch and
    [tmp_response['ts']] for a post. *)
Record Replies : Type := { replies_messages : list (gmap string string) }.
Record Posted : Type := { posted_ts : string }.

(** [completion.choices[i].message.content] *)
Record ChatMessage : Type := { content : string }.
Record Choice : Type := { message : ChatMessage }.
Record Completion : Type := { choices : list Choice }.

(** The five outbound calls of the module. *)
Inductive call : Type :=
| conversations_replies (channel ts : string)
| chat_postMessage (channel thread_ts text : string)
| chat_delete (channel ts : string)
| ChatCompletion_create (model : string) (messages : list (gmap string string))
| say (text channel thread_ts : string).

(** The response of each call; those of [chat_delete] and [say] are
    ignored by the handler. *)
Definition response (c : call) : Type :=
  match c with
  | conversations_replies _ _ => Replies
  | chat_postMessage _ _ _ => Posted
  | ChatCompletion_create _ _ => Completion
  | chat_delete _ _ | say _ _ _ => unit
  end.

(** Handler code: it returns, raises, or performs a call and goes on with
    the answer. *)
Inductive prog (A : Type) : Type :=
| Ret (a : A)
| Raise (e : exn)
| Call (c : call) (k : response c -> prog A).
Arguments Ret {A} a.
Arguments Raise {A} e.
Arguments Call {A} c k.

Fixpoint bind {A B : Type} (m : prog A) (f : A -> prog B) : prog B :=
  match m with
  | Ret a => f a
  | Raise e => Raise e
  | Call c k => Call c (fun r => bind (k r) f)
  end.

#[export] Instance prog_ret : MRet prog := @Ret.
#[export] Instance prog_bind : MBind prog := fun A B f m => bind m f.

(** One performed call with its outcome: the exception it raised or the
    response it returned. *)
Inductive entry : Type :=
| Entry (c : call) (r : exn + response c).

(** The outside world answers a call knowing everything that happened
    before it. *)
Definition world : Type := list entry -> forall c : call, exn + response c.

(** Running handler code from history [h]: the outcome and the extended
    history.  An exception is never caught: it ends the run. *)
Fixpoint run {A : Type} (w : world) (h : list entry) (p : prog A)
  : (exn + A) * list entry :=
  match p with
  | Ret a => (inr a, h)
  | Raise e => (inl e, h)
  | Call c k =>
      match w h c with
      | inl e => (inl e, h ++ [Entry c (inl e)])
      | inr r => run w (h ++ [Entry c (inr r)]) (k r)
      end
  end.

(** Performing call [c] and handing back its response. *)
Definition perform (c : call) : prog (response c) := Call c Ret.

(** [d[key]] *)
Definition getitem (d : gmap string string) (key : string) : prog string :=
  match d !! key with
  | Some v => Ret v
  | None => Raise (KeyError key)
  end.

(** [l[0]] *)
Definition index_first {A : Type} (l : list A) : prog A :=
  match l with
  | x :: _ => Ret x
  | [] => Raise IndexError
  end.

(** [l[-1]] *)
Definition index_last {A : Type} (l : list A) : prog A :=
  match last l with
  | Some x => Ret x
  | None => Raise IndexError
  end.

(** What a trace shows of an entry: the method called and whether the call
    returned. *)
Definition method (e : entry) : string :=
  match e with
  | Entry (conversations_replies _ _) _ => "conversations_replies"
  | Entry (chat_postMessage _ _ _) _ => "chat_postMessage"
  | Entry (chat_delete _ _) _ => "chat_delete"
  | Entry (ChatCompletion_create _ _) _ => "ChatCompletion.create"
  | Entry (say _ _ _) _ => "say"
  end.

Definition returned (e : entry) : bool :=
  match e with
  | Entry _ (inr _) => true
  | Entry _ (inl _) => false
  end.

Definition raised (e : entry) : option exn :=
  match e with
  | Entry _ (inl x) => Some x
  | Entry _ (inr _) => None
  end.

(** Thread entry [m] has author [fst authored] and text [snd authored]. *)
Definition authored_by (m : gmap string string) (authored : string * string)
  : Prop :=
  m !! "user" = Some (fst authored) /\ m !! "text" = Some (snd authored).

Definition methods (t : list entry) : list string := map method t.
Definition outcomes (t : list entry) : list bool := map returned t.

(** A world whose answers depend on the kind of call only: every thread
    fetch returns [thread], the post of the placeholder returns [posted],
    and the completion request, the delete and the final post have the
    given outcomes. *)
Definition scripted_world (thread : list (gmap string string))
    (posted : Posted) (completion : exn + Completion)
    (deleted said : exn + unit) : world :=
  fun _ c =>
    match c return exn + response c with
    | conversations_replies _ _ => inr {| replies_messages := thread |}
    | chat_postMessage _ _ _ => inr posted
    | chat_delete _ _ => deleted
    | ChatCompletion_create _ _ => completion
    | say _ _ _ => said
    end.

(** * Length of a replacement by the empty string *)

Lemma append_empty_l (s : string) : "" +:+ s = s.
Proof. reflexivity. Qed.

Lemma replace_from_cons old new c s :
  replace_from old new 0 (String c s) =
  if startswith (String c s) old
  then new +:+ replace_from old new (String.length old - 1) s
  else String c (replace_from old new 0 s).
Proof. reflexivity. Qed.

Lemma replace_from_length old skip s :
  String.length (replace_from old "" skip s) <= String.length s.
Proof.
  revert skip; induction s as [|c s IH]; intros skip; [simpl; lia|].
  destruct skip as [|k].
  - rewrite replace_from_cons. destruct (startswith (String c s) old).
    + rewrite append_empty_l. specialize (IH (String.length old - 1)). simpl. lia.
    + simpl. specialize (IH 0). lia.
  - specialize (IH k). simpl. lia.
Qed.

Lemma interleave_empty s : interleave "" s = s.
Proof.
  induction s as [|c s IH]; simpl; [|rewrite append_empty_l, IH]; reflexivity.
Qed.

Lemma replace_length s old :
  String.length (replace s old "") <= String.length s.
Proof.
  destruct old; unfold replace.
  - rewrite append_empty_l, interleave_empty. lia.
  - apply replace_from_length.
Qed.

Lemma replace_startswith_shorter s a old :
  startswith s (String a old) = true ->
  String.length (replace s (String a old) "") < String.length s.
Proof.
  intros Hsw. destruct s as [|b s]; [discriminate|].
  unfold replace. rewrite replace_from_cons, Hsw, append_empty_l.
  generalize (String.length (String a old) - 1); intros k.
  pose proof (replace_from_length (String a old) k s).
  simpl. lia.
Qed.

(** * The handler *)

Section Bot.

(** [BOT_NAME = os.environ.get('BOT_NAME')]: [None] when the variable is
    not set. *)
Variable BOT_NAME : option string.

(** What an f-string prints for [BOT_NAME]. *)
Definition str (o : option string) : string :=
  match o with
  | Some s => s
  | None => "None"
  end.

Definition BOT_MENTION : string := "<@" +:+ str BOT_NAME +:+ ">".

Definition SYSTEM_PROMPT : string :=
  "This is a conversation between a user and an helpful assistant. The assistant thinks step-by-step and gives useful advise to the user, with detailed explanation why he gives such advise.".

(** The list the [for] loop of [delete_prefix] runs over. *)
Definition prefixes : list string := [" "; newline].

Lemma recursive_call_shorter (message prefix : string) :
  List.find (startswith (replace message BOT_MENTION "")) prefixes = Some prefix ->
  String.length (replace (replace message BOT_MENTION "") prefix "")
  < String.length message.
Proof.
  intros Hfound. apply find_some in Hfound as [Hin Hsw].
  pose proof (replace_length message BOT_MENTION).
  assert (exists c, prefix = String c "") as [c ->].
  { destruct Hin as [<-|[<-|[]]]; eauto. }
  apply replace_startswith_shorter in Hsw. lia.
Qed.

(** The loop returns from its body at the first prefix the message starts
    with, so it is a search for that prefix. *)
Equations? delete_prefix (message : string) : string
  by wf (String.length message) lt :=
  delete_prefix message
    with inspect (List.find (startswith (replace message BOT_MENTION ""))
                            prefixes) := {
    | exist _ (Some prefix) Hfound =>
        delete_prefix (replace (replace message BOT_MENTION "") prefix "");
    | exist _ None _ => replace message BOT_MENTION "" }.
Proof. apply recursive_call_shorter. exact Hfound. Qed.

(** [delete_prefix] with the depth of the Python call stack made explicit:
    [None] when the result needs more than [depth] nested calls. *)
Fixpoint delete_prefix_depth (depth : nat) (message : string) : option string :=
  match depth with
  | O => None
  | S depth' =>
      let message := replace message BOT_MENTION "" in
      match List.find (startswith message) prefixes with
      | Some prefix => delete_prefix_depth depth' (replace message prefix "")
      | None => Some message
      end
  end.

(** The transform as section 4.2 of the specification words it, for
    comparison with [delete_prefix]: the mention token is removed wherever
    it appears, then single leading spaces and newlines are stripped until
    the text starts with neither. *)
Fixpoint strip_leading (s : string) : string :=
  match s with
  | EmptyString => EmptyString
  | String c s' =>
      if (Ascii.eqb c " " || Ascii.eqb c "010")%char then strip_leading s' else s
  end.

Definition delete_prefix_as_specified (message : string) : string :=
  strip_leading (replace message BOT_MENTION "").

Definition should_run_completion (event : gmap string string) : prog bool :=
  if decide (event !! "subtype" = Some "message_changed") then mret false
  else
    channel ← getitem event "channel";
    ts ← getitem event "ts";
    thread ← perform (conversations_replies channel
                     (default ts (event !! "thread_ts")));
    first ← index_first (replies_messages thread);
    origin_message ← getitem first "text";
    final ← index_last (replies_messages thread);
    last_speaker ← getitem final "user";
    if str_in BOT_MENTION origin_message
       && negb (bool_decide (Some last_speaker = BOT_NAME))
    then mret true
    else mret false.

(** [dict(role=..., content=...)] *)
Definition prompt_message (role content : string) : gmap string string :=
  {[ "role" := role; "content" := content ]}.

(** The prompt message [create_messages] makes from a thread entry with
    author [fst authored] and text [snd authored]. *)
Definition prompt_of (authored : string * string) : gmap string string :=
  prompt_message
    (if decide (Some (fst authored) = BOT_NAME) then "assistant" else "user")
    (delete_prefix (snd authored)).

(** The loop of [create_messages], appending to [messages]. *)
Fixpoint for_each_message (thread_messages messages : list (gmap string string))
  : prog (list (gmap string string)) :=
  match thread_messages with
  | [] => mret messages
  | message :: rest =>
      user ← getitem message "user";
      text ← getitem message "text";
      for_each_message rest
        (messages ++
         [prompt_message
            (if decide (Some user = BOT_NAME) then "assistant" else "user")
            (delete_prefix text)])
  end.

Definition create_messages (event : gmap string string)
  : prog (list (gmap string string)) :=
  channel ← getitem event "channel";
  ts ← getitem event "ts";
  thread ← perform (conversations_replies channel
                   (default ts (event !! "thread_ts")));
  let messages := [] in
  let messages := messages ++ [prompt_message "system" SYSTEM_PROMPT] in
  for_each_message (replies_messages thread) messages.

Definition run_completion (event : gmap string string) : prog unit :=
  triggered ← should_run_completion event;
  if negb triggered then mret tt
  else
    channel ← getitem event "channel";
    ts ← getitem event "ts";
    response ← perform (conversations_replies channel ts);
    first ← index_first (replies_messages response);
    thread_ts ← getitem first "ts";
    tmp_response ← perform (chat_postMessage channel thread_ts "生成なう");
    messages ← create_messages event;
    completion ← perform (ChatCompletion_create "gpt-3.5-turbo" messages);
    choice ← index_first (choices completion);
    let assistant_message := content (message choice) in
    _ ← perform (chat_delete channel (posted_ts tmp_response));
    _ ← perform (say assistant_message channel thread_ts);
    mret tt.

End Bot.

(** The handler of [app_mention] events: mentions are answered by the
    handler of [message] events, this one only keeps slack_bolt from
    warning about an unhandled event. *)
Definition return_nothing (event : gmap string string) : prog unit := mret tt.

(** * An example thread *)

(** A one-message thread in which user [U1] mentions the bot [UBOT], the
    event of that message, and worlds around it. *)
Definition example_bot : option string := Some "UBOT".

Definition example_message : gmap string string :=
  {[ "user" := "U1"; "text" := "<@UBOT> hello there"; "ts" := "1.0" ]}.

Definition example_event : gmap string string :=
  <["channel" := "C1"]> example_message.

Definition edited_event : gmap string string :=
  <["subtype" := "message_changed"]> example_event.

Definition example_posted : Posted := {| posted_ts := "2.0" |}.

Definition example_completion : Completion :=
  {| choices := [ {| message := {| content := " General Kenobi" |} |} ] |}.

Definition acknowledged : exn + unit := inr tt.

Definition happy_world : world :=
  scripted_world [example_message] example_posted (inr example_completion)
    acknowledged acknowledged.

Definition empty_thread_world : world :=
  scripted_world [] example_posted (inr example_completion)
    acknowledged acknowledged.

Definition request_fails_world : world :=
  scripted_world [example_message] example_posted (inl (ApiError "timeout"))
    acknowledged acknowledged.

Definition final_post_fails_world : world :=
  scripted_world [example_message] example_posted (inr example_completion)
    acknowledged (inl (ApiError "channel_not_found")).

(** Further events, entries and worlds for the edge cases: a reply in the
    thread of [example_message], events that lack a key, a thread entry
    without author (as Slack sends for a [bot_message]), one without text,
    a world in which every call raises, and worlds that return threads with
    such entries. *)
Definition reply_event : gmap string string :=
  {[ "channel" := "C1"; "ts" := "3.0"; "thread_ts" := "1.0";
     "user" := "U2"; "text" := "and then?" ]}.

Definition reply_message : gmap string string :=
  {[ "user" := "U2"; "text" := "and then?"; "ts" := "3.0" ]}.

Definition event_without_channel : gmap string string :=
  delete "channel" example_event.

Definition event_without_ts : gmap string string :=
  delete "ts" reply_event.

Definition authorless_message : gmap string string :=
  {[ "text" := "deployed"; "ts" := "2.5" ]}.

Definition textless_message : gmap string string :=
  {[ "user" := "U2"; "ts" := "2.6" ]}.

Definition unreachable_world : world :=
  fun _ c => inl (ApiError "ratelimited").

Definition authorless_world : world :=
  scripted_world [example_message; authorless_message] example_posted
    (inr example_completion) acknowledged acknowledged.

Definition textless_world : world :=
  scripted_world [textless_message; example_message] example_posted
    (inr example_completion) acknowledged acknowledged.

Definition stranding_world : world :=
  scripted_world [example_message; authorless_message; reply_message]
    example_posted (inr example_completion) acknowledged acknowledged.


(** * Properties of the string primitives *)

Lemma replace_absent s a old new :
  str_in (String a old) s = false -> replace s (String a old) new = s.
Proof.
  unfold replace. induction s as [|c s IH]; [reflexivity|].
  intros Hin. change (str_in (String a old) (String c s))
    with (startswith (String c s) (String a old) || str_in (String a old) s) in Hin.
  apply orb_false_iff in Hin as [Hsw Hin].
  rewrite replace_from_cons, Hsw, (IH Hin). reflexivity.
Qed.

Lemma replace_present_shorter s a old :
  str_in (String a old) s = true ->
  String.length (replace s (String a old) "") < String.length s.
Proof.
  induction s as [|c s IH]; [discriminate|].
  intros Hin. change (str_in (String a old) (String c s))
    with (startswith (String c s) (String a old) || str_in (String a old) s) in Hin.
  destruct (startswith (String c s) (String a old)) eqn:Hsw.
  - apply replace_startswith_shorter, Hsw.
  - simpl in Hin. specialize (IH Hin). unfold replace in *.
    rewrite replace_from_cons, Hsw. simpl. lia.
Qed.

Lemma startswith_empty s : startswith s "" = true.
Proof. destruct s; reflexivity. Qed.

(** Replacing by the empty string brings in no character. *)
Lemma replace_from_occurs c old skip s :
  occurs c s = false -> occurs c (replace_from old "" skip s) = false.
Proof.
  revert skip; induction s as [|b s IH]; intros skip Hocc; [reflexivity|].
  cbn [occurs] in Hocc. apply orb_false_iff in Hocc as [Hb Hs].
  destruct skip as [|k]; [|apply IH, Hs].
  rewrite replace_from_cons. destruct (startswith (String b s) old).
  - rewrite append_empty_l. apply IH, Hs.
  - cbn [occurs]. rewrite Hb. apply IH, Hs.
Qed.

Lemma replace_occurs c s old :
  occurs c s = false -> occurs c (replace s old "") = false.
Proof.
  destruct old; unfold replace.
  - rewrite append_empty_l, interleave_empty. trivial.
  - apply replace_from_occurs.
Qed.

(** Replacing a one-character string removes the character everywhere. *)
Lemma replace_char_gone c s : occurs c (replace s (String c "") "") = false.
Proof.
  unfold replace. induction s as [|b s IH]; [reflexivity|].
  rewrite replace_from_cons. cbn [startswith]. rewrite startswith_empty.
  destruct (Ascii.eqb c b) eqn:Hcb.
  - rewrite append_empty_l. exact IH.
  - cbn [occurs]. rewrite Hcb. exact IH.
Qed.

Lemma startswith_occurs c s :
  startswith s (String c "") = true -> occurs c s = true.
Proof.
  destruct s as [|b s]; [discriminate|]. cbn [startswith occurs].
  destruct (Ascii.eqb c b); [reflexivity|discriminate].
Qed.

(** * Properties of [delete_prefix] *)

Section DeletePrefix.

Variable BOT_NAME : option string.

Lemma BOT_MENTION_nonempty :
  BOT_MENTION BOT_NAME = String "<" ("@" +:+ str BOT_NAME +:+ ">").
Proof. reflexivity. Qed.

Lemma delete_prefix_step (message : string) :
  delete_prefix BOT_NAME message =
  match List.find (startswith (replace message (BOT_MENTION BOT_NAME) ""))
                  prefixes with
  | Some prefix =>
      delete_prefix BOT_NAME
        (replace (replace message (BOT_MENTION BOT_NAME) "") prefix "")
  | None => replace message (BOT_MENTION BOT_NAME) ""
  end.
Proof.
  funelim (delete_prefix BOT_NAME message);
    match goal with H : List.find _ _ = _ |- _ => rewrite H end; reflexivity.
Qed.

Lemma delete_prefix_length (message : string) :
  String.length (delete_prefix BOT_NAME message) <= String.length message.
Proof.
  funelim (delete_prefix BOT_NAME message).
  - pose proof (recursive_call_shorter _ _ _ Hfound). lia.
  - apply replace_length.
Qed.

(** The result starts with neither a space nor a newline. *)
Lemma delete_prefix_no_leading (message : string) :
  List.find (startswith (delete_prefix BOT_NAME message)) prefixes = None.
Proof.
  funelim (delete_prefix BOT_NAME message); assumption.
Qed.

Lemma mention_absent (s : string) :
  str_in (BOT_MENTION BOT_NAME) s = false ->
  replace s (BOT_MENTION BOT_NAME) "" = s.
Proof. rewrite BOT_MENTION_nonempty. apply replace_absent. Qed.

Lemma mention_present_shorter (s : string) :
  str_in (BOT_MENTION BOT_NAME) s = true ->
  String.length (replace s (BOT_MENTION BOT_NAME) "") < String.length s.
Proof. rewrite BOT_MENTION_nonempty. apply replace_present_shorter. Qed.

(** A string without leading space or newline is left alone exactly when it
    holds no mention token. *)
Lemma delete_prefix_fixed (r : string) :
  List.find (startswith r) prefixes = None ->
  delete_prefix BOT_NAME r = r <-> str_in (BOT_MENTION BOT_NAME) r = false.
Proof.
  intros Hlead. split.
  - intros Hfix. destruct (str_in _ r) eqn:Hin; [|reflexivity].
    apply mention_present_shorter in Hin.
    rewrite delete_prefix_step in Hfix.
    destruct (List.find (startswith (replace r (BOT_MENTION BOT_NAME) ""))
                        prefixes) as [prefix|] eqn:Hfound.
    + pose proof (delete_prefix_length
                    (replace (replace r (BOT_MENTION BOT_NAME) "") prefix ""))
        as Hlen.
      rewrite Hfix in Hlen.
      pose proof (replace_length (replace r (BOT_MENTION BOT_NAME) "") prefix).
      lia.
    + rewrite Hfix in Hin. lia.
  - intros Hin. rewrite delete_prefix_step.
    rewrite (mention_absent _ Hin), Hlead. reflexivity.
Qed.

Lemma occurs_replace_le c s old :
  (if occurs c (replace s old "") then 1 else 0)
  <= (if occurs c s then 1 else 0).
Proof.
  destruct (occurs c s) eqn:Hocc.
  - destruct (occurs c (replace s old "")); lia.
  - rewrite (replace_occurs _ _ _ Hocc). lia.
Qed.

Lemma remaining_replace s old : remaining (replace s old "") <= remaining s.
Proof.
  unfold remaining.
  pose proof (occurs_replace_le " " s old).
  pose proof (occurs_replace_le "010" s old). lia.
Qed.

Lemma remaining_after_prefix s prefix :
  List.find (startswith s) prefixes = Some prefix ->
  remaining (replace s prefix "") < remaining s.
Proof.
  intros Hfound. apply find_some in Hfound as [Hin Hsw].
  assert (exists c, prefix = String c "" /\ (c = " " \/ c = "010")%char)
    as (c & -> & Hc).
  { destruct Hin as [<-|[<-|[]]]; eauto. }
  apply startswith_occurs in Hsw.
  pose proof (replace_char_gone c s) as Hgone.
  pose proof (occurs_replace_le " " s (String c "")).
  pose proof (occurs_replace_le "010" s (String c "")).
  unfold remaining.
  destruct Hc as [-> | ->]; rewrite Hsw, Hgone in *; lia.
Qed.

Lemma delete_prefix_depth_remaining (depth : nat) :
  forall message,
    remaining message < depth ->
    delete_prefix_depth BOT_NAME depth message
    = Some (delete_prefix BOT_NAME message).
Proof.
  induction depth as [|depth IH]; intros message Hdepth; [lia|].
  rewrite delete_prefix_step. cbn [delete_prefix_depth].
  destruct (List.find (startswith (replace message (BOT_MENTION BOT_NAME) ""))
                      prefixes) as [prefix|] eqn:Hfound; [|reflexivity].
  apply IH. pose proof (remaining_after_prefix _ _ Hfound).
  pose proof (remaining_replace message (BOT_MENTION BOT_NAME)). lia.
Qed.

(** X3: a recursive call removes every space, or every newline, of the
    message, so the call stack of [delete_prefix] is never deeper than
    three. *)
Lemma delete_prefix_depth_three (message : string) :
  delete_prefix_depth BOT_NAME 3 message = Some (delete_prefix BOT_NAME message).
Proof.
  apply delete_prefix_depth_remaining. unfold remaining.
  destruct (occurs " " message), (occurs "010" message); simpl; lia.
Qed.

(** C8: [delete_prefix] terminates on every string.  A call either finds
    that the mention-free text starts with no space or newline and returns
    it, or recurses on a string strictly shorter than its argument; hence a
    call stack deeper than the length of the message is never needed, and
    the function is total. *)
Theorem delete_prefix_terminates (message : string) (depth : nat) :
  String.length message < depth ->
  delete_prefix_depth BOT_NAME depth message
  = Some (delete_prefix BOT_NAME message)
  /\ match List.find (startswith (replace message (BOT_MENTION BOT_NAME) ""))
                     prefixes with
     | Some prefix =>
         String.length
           (replace (replace message (BOT_MENTION BOT_NAME) "") prefix "")
         < String.length message
         /\ delete_prefix BOT_NAME message
            = delete_prefix BOT_NAME
                (replace (replace message (BOT_MENTION BOT_NAME) "") prefix "")
     | None =>
         delete_prefix BOT_NAME message
         = replace message (BOT_MENTION BOT_NAME) ""
     end.
Proof.
  intros Hdepth. split.
  - revert message Hdepth. induction depth as [|depth IH]; intros message Hdepth;
      [lia|].
    rewrite delete_prefix_step. cbn [delete_prefix_depth].
    destruct (List.find (startswith (replace message (BOT_MENTION BOT_NAME) ""))
                        prefixes) as [prefix|] eqn:Hfound; [|reflexivity].
    apply IH. pose proof (recursive_call_shorter _ _ _ Hfound). lia.
  - rewrite delete_prefix_step.
    destruct (List.find (startswith (replace message (BOT_MENTION BOT_NAME) ""))
                        prefixes) as [prefix|] eqn:Hfound; [|reflexivity].
    split; [|reflexivity]. apply recursive_call_shorter, Hfound.
Qed.

(** C6, as amended: applying [delete_prefix] twice gives the same result as
    applying it once exactly when the result of the first application
    contains no mention token. *)
Theorem delete_prefix_idempotent_iff (s : string) :
  delete_prefix BOT_NAME (delete_prefix BOT_NAME s) = delete_prefix BOT_NAME s
  <-> str_in (BOT_MENTION BOT_NAME) (delete_prefix BOT_NAME s) = false.
Proof. apply delete_prefix_fixed, delete_prefix_no_leading. Qed.

End DeletePrefix.

Lemma delete_prefix_terminates_witness :
  delete_prefix_depth (Some "UBOT") 9 "<@UBOT> "
  = Some (delete_prefix (Some "UBOT") "<@UBOT> ")
  /\ (String.length
        (replace (replace "<@UBOT> " (BOT_MENTION (Some "UBOT")) "") " " "")
      < String.length "<@UBOT> "
      /\ delete_prefix (Some "UBOT") "<@UBOT> "
         = delete_prefix (Some "UBOT")
             (replace (replace "<@UBOT> " (BOT_MENTION (Some "UBOT")) "") " " "")).
Proof.
  apply (delete_prefix_terminates (Some "UBOT") "<@UBOT> " 9). vm_compute. lia.
Defined.

(** C6 as stated fails: one pass of [replace] can splice a new mention token
    together, which a second application then removes. *)
Lemma delete_prefix_not_idempotent :
  delete_prefix (Some "UBOT") "<@<@UBOT>UBOT>" = "<@UBOT>"
  /\ delete_prefix (Some "UBOT") (delete_prefix (Some "UBOT") "<@<@UBOT>UBOT>")
     <> delete_prefix (Some "UBOT") "<@<@UBOT>UBOT>".
Proof. split; [reflexivity|]. vm_compute. discriminate. Qed.

Lemma delete_prefix_idempotent_iff_witness :
  delete_prefix (Some "UBOT") (delete_prefix (Some "UBOT") "<@UBOT> hi")
  = delete_prefix (Some "UBOT") "<@UBOT> hi".
Proof.
  apply (proj2 (delete_prefix_idempotent_iff (Some "UBOT") "<@UBOT> hi")).
  vm_compute. reflexivity.
Defined.

(** C1: the claim fails on the code.  Once the mention-free text starts with
    a space, [delete_prefix] removes every space of the message, not only
    the leading ones; the transform the specification describes keeps them. *)
Theorem delete_prefix_removes_inner_spaces :
  delete_prefix (Some "BOT") "<@BOT> help me plan a trip" = "helpmeplanatrip"
  /\ delete_prefix_as_specified (Some "BOT") "<@BOT> help me plan a trip"
     = "help me plan a trip".
Proof. split; reflexivity. Qed.

(** * Running handler code *)

Lemma run_bind {A B : Type} (w : world) (m : prog A) (f : A -> prog B) :
  forall h,
    run w h (m ≫= f) =
    match run w h m with
    | (inr a, h') => run w h' (f a)
    | (inl e, h') => (inl e, h')
    end.
Proof.
  induction m as [a|e|c k IH]; intros h; try reflexivity.
  change (run w h (Call c k ≫= f))
    with (match w h c with
          | inl e => (inl e, h ++ [Entry c (inl e)])
          | inr r => run w (h ++ [Entry c (inr r)]) (k r ≫= f)
          end).
  simpl. destruct (w h c) as [e|r]; [reflexivity|apply IH].
Qed.

Lemma run_ret {A : Type} (w : world) (h : list entry) (a : A) :
  run w h (mret a) = (inr a, h).
Proof. reflexivity. Qed.

Lemma run_perform (w : world) (h : list entry) (c : call) :
  run w h (perform c) =
  match w h c with
  | inl e => (inl e, h ++ [Entry c (inl e)])
  | inr r => (inr r, h ++ [Entry c (inr r)])
  end.
Proof. unfold perform. simpl. destruct (w h c); reflexivity. Qed.

Lemma run_getitem (w : world) (h : list entry) (d : gmap string string) key :
  run w h (getitem d key) =
  match d !! key with
  | Some v => (inr v, h)
  | None => (inl (KeyError key), h)
  end.
Proof. unfold getitem. destruct (d !! key); reflexivity. Qed.

Lemma run_index_first {A : Type} (w : world) (h : list entry) (l : list A) :
  run w h (index_first l) =
  match l with
  | x :: _ => (inr x, h)
  | [] => (inl IndexError, h)
  end.
Proof. destruct l; reflexivity. Qed.

Lemma run_index_last {A : Type} (w : world) (h : list entry) (l : list A) :
  run w h (index_last l) =
  match last l with
  | Some x => (inr x, h)
  | None => (inl IndexError, h)
  end.
Proof. unfold index_last. destruct (last l); reflexivity. Qed.

Create Rewrite HintDb run_db.
#[export] Hint Rewrite @run_bind @run_ret run_getitem
  @run_index_first @run_index_last : run_db.

(** Push [run] through the binds and reduce the matches that got decided.
    The type of a bound response is stored reduced, so [run_perform] is
    applied after folding it back. *)
Ltac run_perform_step :=
  match goal with
  | |- context [@run ?A ?w ?h (perform ?c)] =>
      change (@run A w h (perform c)) with (@run (response c) w h (perform c));
      rewrite (run_perform w h c)
  end.
Ltac run_perform_step_in H :=
  match type of H with
  | context [@run ?A ?w ?h (perform ?c)] =>
      change (@run A w h (perform c)) with (@run (response c) w h (perform c)) in H;
      rewrite (run_perform w h c) in H
  end.
Ltac run_steps :=
  repeat progress
    (autorewrite with run_db; try run_perform_step; cbv beta iota).
Ltac run_steps_in H :=
  repeat progress
    (autorewrite with run_db in H; try run_perform_step_in H; cbv beta iota in H).

(** * The trigger filter *)

Section TriggerFilter.

Variable BOT_NAME : option string.
Variable w : world.
Variable h : list entry.
Variable event : gmap string string.

(** C7: an event whose subtype is ["message_changed"] is never a trigger,
    whatever the thread holds, and the thread is not fetched: the filter
    returns [False] and performs no call. *)
Theorem edit_event_never_triggers :
  event !! "subtype" = Some "message_changed" ->
  run w h (should_run_completion BOT_NAME event) = (inr false, h).
Proof.
  intros Hedit. unfold should_run_completion.
  destruct (decide (event !! "subtype" = Some "message_changed")); [|contradiction].
  reflexivity.
Qed.

Variables channel ts : string.
Variable thread : Replies.

Hypothesis not_edit : event !! "subtype" <> Some "message_changed".
Hypothesis event_channel : event !! "channel" = Some channel.
Hypothesis event_ts : event !! "ts" = Some ts.
Hypothesis fetched :
  w h (conversations_replies channel (default ts (event !! "thread_ts")))
  = inr thread.

(** C9: when the fetched thread has an empty message list the filter does
    not return a boolean: indexing the first message raises [IndexError]. *)
Theorem empty_thread_raises :
  replies_messages thread = [] ->
  run w h (should_run_completion BOT_NAME event)
  = (inl IndexError,
     h ++ [Entry (conversations_replies channel
                    (default ts (event !! "thread_ts"))) (inr thread)]).
Proof.
  intros Hempty. unfold should_run_completion.
  destruct (decide (event !! "subtype" = Some "message_changed")); [contradiction|].
  run_steps. rewrite event_channel. run_steps. rewrite event_ts. run_steps.
  rewrite fetched. run_steps. rewrite Hempty. reflexivity.
Qed.

(** C2: on a non-edit event whose thread is not empty, the filter returns
    [True] exactly when the text of the first message contains the mention
    token and the author of the last message is not the bot; otherwise it
    returns [False]. *)
Theorem trigger_iff_mentioned_and_last_not_bot
    (first final : gmap string string) (rest : list (gmap string string))
    (origin_message last_speaker : string) :
  replies_messages thread = first :: rest ->
  last (first :: rest) = Some final ->
  first !! "text" = Some origin_message ->
  final !! "user" = Some last_speaker ->
  exists b : bool,
    run w h (should_run_completion BOT_NAME event)
    = (inr b,
       h ++ [Entry (conversations_replies channel
                      (default ts (event !! "thread_ts"))) (inr thread)])
    /\ (b = true <->
        str_in (BOT_MENTION BOT_NAME) origin_message = true
        /\ Some last_speaker <> BOT_NAME).
Proof.
  intros Hmessages Hlast Htext Huser.
  exists (str_in (BOT_MENTION BOT_NAME) origin_message
          && negb (bool_decide (Some last_speaker = BOT_NAME))).
  split.
  - unfold should_run_completion.
    destruct (decide (event !! "subtype" = Some "message_changed")); [contradiction|].
    run_steps. rewrite event_channel. run_steps. rewrite event_ts. run_steps.
    rewrite fetched. run_steps. rewrite Hmessages. run_steps.
    rewrite Htext. run_steps. rewrite Hlast. run_steps. rewrite Huser.
    run_steps.
    destruct (str_in _ _ && _); reflexivity.
  - rewrite andb_true_iff, negb_true_iff, bool_decide_eq_false. reflexivity.
Qed.

End TriggerFilter.

(** * The history adapter *)

Section HistoryAdapter.

Variable BOT_NAME : option string.

(** The loop of [create_messages] performs no call. *)
Lemma for_each_message_pure (thread_messages : list (gmap string string)) :
  forall messages, exists outcome, forall (w : world) (h : list entry),
    run w h (for_each_message BOT_NAME thread_messages messages) = (outcome, h).
Proof.
  induction thread_messages as [|m rest IH]; intros messages.
  - exists (inr messages). reflexivity.
  - cbn [for_each_message].
    destruct (m !! "user") as [user|] eqn:Huser.
    + destruct (m !! "text") as [text|] eqn:Htext.
      * destruct (IH (messages ++
                      [prompt_message
                         (if decide (Some user = BOT_NAME)
                          then "assistant" else "user")
                         (delete_prefix BOT_NAME text)])) as [outcome Hrun].
        exists outcome. intros w h. run_steps. rewrite Huser. run_steps.
        rewrite Htext. run_steps. apply Hrun.
      * exists (inl (KeyError "text")). intros w h. run_steps.
        rewrite Huser. run_steps. rewrite Htext. reflexivity.
    + exists (inl (KeyError "user")). intros w h. run_steps.
      rewrite Huser. reflexivity.
Qed.

Lemma for_each_message_run (w : world) (h : list entry)
    (thread_messages : list (gmap string string))
    (authored : list (string * string)) :
  Forall2 authored_by thread_messages authored ->
  forall messages,
    run w h (for_each_message BOT_NAME thread_messages messages)
    = (inr (messages ++ map (prompt_of BOT_NAME) authored), h).
Proof.
  induction 1 as [|m [user text] rest authored [Huser Htext] _ IH];
    intros messages.
  - simpl. rewrite app_nil_r. reflexivity.
  - cbn [for_each_message]. cbn [fst snd] in Huser, Htext. run_steps.
    rewrite Huser. run_steps. rewrite Htext. run_steps.
    rewrite IH, <- app_assoc. reflexivity.
Qed.

(** C3: the output of [create_messages] is one system message followed by
    one message per thread entry, in the order of the thread; an entry
    written by the bot gets role ["assistant"], any other entry role
    ["user"], and the content is [delete_prefix] of the entry's text. *)
Theorem create_messages_shape (w : world) (h : list entry)
    (event : gmap string string) (channel ts : string)
    (thread : Replies) (authored : list (string * string)) :
  event !! "channel" = Some channel ->
  event !! "ts" = Some ts ->
  w h (conversations_replies channel (default ts (event !! "thread_ts")))
  = inr thread ->
  Forall2 authored_by (replies_messages thread) authored ->
  run w h (create_messages BOT_NAME event)
  = (inr (prompt_message "system" SYSTEM_PROMPT
          :: map (fun entry : string * string =>
                    prompt_message
                      (if decide (Some (fst entry) = BOT_NAME)
                       then "assistant" else "user")
                      (delete_prefix BOT_NAME (snd entry)))
                 authored),
     h ++ [Entry (conversations_replies channel
                    (default ts (event !! "thread_ts"))) (inr thread)]).
Proof.
  intros Hchannel Hts Hfetched Hauthored. unfold create_messages.
  run_steps. rewrite Hchannel. run_steps. rewrite Hts. run_steps.
  rewrite Hfetched. run_steps.
  rewrite (for_each_message_run _ _ _ _ Hauthored). reflexivity.
Qed.

End HistoryAdapter.

(** * The completion orchestrator *)

(** Case analysis on the next undecided step of a run recorded in [H]. *)
Ltac run_case_in H :=
  match type of H with
  | context [run ?w ?h (for_each_message ?B ?l ?acc)] =>
      let outcome := fresh "outcome" in
      let Hpure := fresh "Hpure" in
      destruct (for_each_message_pure B l acc) as [outcome Hpure];
      rewrite (Hpure w h) in H; clear Hpure
  | context [match ?x with _ => _ end] =>
      lazymatch x with
      | context [match _ with _ => _ end] => fail
      | _ =>
          first [ match goal with E : x = _ |- _ => rewrite E in H end
                | destruct x eqn:? ]
      end
  end.
Ltac run_cases_in H :=
  repeat (run_steps_in H; run_case_in H); run_steps_in H.

Section Orchestrator.

Variable BOT_NAME : option string.
Variable w : world.
Variable event : gmap string string.

Lemma triggered_inv (h h1 : list entry) :
  run w h (should_run_completion BOT_NAME event) = (inr true, h1) ->
  exists channel ts thread,
    event !! "channel" = Some channel /\ event !! "ts" = Some ts
    /\ h1 = h ++ [Entry (conversations_replies channel
                           (default ts (event !! "thread_ts"))) (inr thread)].
Proof.
  intros Hrun. unfold should_run_completion in Hrun.
  run_cases_in Hrun; try discriminate.
  injection Hrun as <-. eauto 6.
Qed.

(** The handler got past the filter: what is left to run from there. *)
Lemma triggered_run (outcome : exn + unit) (t : list entry) :
  fst (run w [] (should_run_completion BOT_NAME event)) = inr true ->
  run w [] (run_completion BOT_NAME event) = (outcome, t) ->
  exists channel ts thread,
    event !! "channel" = Some channel /\ event !! "ts" = Some ts
    /\ run w [Entry (conversations_replies channel
                       (default ts (event !! "thread_ts"))) (inr thread)]
         (response ← perform (conversations_replies channel ts);
          first ← index_first (replies_messages response);
          thread_ts ← getitem first "ts";
          tmp_response ← perform (chat_postMessage channel thread_ts "生成なう");
          messages ← create_messages BOT_NAME event;
          completion ← perform (ChatCompletion_create "gpt-3.5-turbo" messages);
          choice ← index_first (choices completion);
          _ ← perform (chat_delete channel (posted_ts tmp_response));
          _ ← perform (say (content (message choice)) channel thread_ts);
          mret tt)
       = (outcome, t).
Proof.
  intros Htriggered Hrun. unfold run_completion in Hrun.
  rewrite run_bind in Hrun.
  destruct (run w [] (should_run_completion BOT_NAME event))
    as [[e|[|]] h1] eqn:Hfilter; try discriminate.
  apply triggered_inv in Hfilter as (channel & ts & thread & Hchannel & Hts & ->).
  exists channel, ts, thread. split; [assumption|]. split; [assumption|].
  cbn [negb] in Hrun. cbv iota in Hrun.
  rewrite run_bind, run_getitem, Hchannel in Hrun. cbv beta iota in Hrun.
  rewrite run_bind, run_getitem, Hts in Hrun. cbv beta iota in Hrun.
  exact Hrun.
Qed.

(** The run of a triggered handler that returns. *)
Lemma happy_path_trace (t : list entry) :
  fst (run w [] (should_run_completion BOT_NAME event)) = inr true ->
  run w [] (run_completion BOT_NAME event) = (inr tt, t) ->
  exists channel ts thread response thread_ts posted fetched messages
         completion choice others deleted said,
    t = [Entry (conversations_replies channel
                  (default ts (event !! "thread_ts"))) (inr thread);
         Entry (conversations_replies channel ts) (inr response);
         Entry (chat_postMessage channel thread_ts "生成なう") (inr posted);
         Entry (conversations_replies channel
                  (default ts (event !! "thread_ts"))) (inr fetched);
         Entry (ChatCompletion_create "gpt-3.5-turbo" messages) (inr completion);
         Entry (chat_delete channel (posted_ts posted)) (inr deleted);
         Entry (say (content (message choice)) channel thread_ts) (inr said)]
    /\ choices completion = choice :: others.
Proof.
  intros Htriggered Hrun.
  destruct (triggered_run _ _ Htriggered Hrun)
    as (channel & ts & thread & Hchannel & Hts & Hrest).
  clear Hrun. unfold create_messages in Hrest.
  run_cases_in Hrest; try discriminate.
  injection Hrest as <-. cbn [app].
  repeat eexists; eassumption.
Qed.

(** C4: a triggered handler that returns has performed, besides the three
    thread fetches, exactly one post of the placeholder, then exactly one
    completion request, then exactly one delete, of the placeholder, then
    exactly one post of the answer, and each of these calls returned. *)
Theorem happy_path_calls (t : list entry) :
  fst (run w [] (should_run_completion BOT_NAME event)) = inr true ->
  run w [] (run_completion BOT_NAME event) = (inr tt, t) ->
  methods t = ["conversations_replies"; "conversations_replies";
               "chat_postMessage"; "conversations_replies";
               "ChatCompletion.create"; "chat_delete"; "say"]
  /\ outcomes t = [true; true; true; true; true; true; true]
  /\ exists channel thread_ts posted deleted,
       t !! 2 = Some (Entry (chat_postMessage channel thread_ts "生成なう")
                            (inr posted))
       /\ t !! 5 = Some (Entry (chat_delete channel (posted_ts posted))
                               (inr deleted)).
Proof.
  intros Htriggered Hrun.
  destruct (happy_path_trace _ Htriggered Hrun)
    as (channel & ts & thread & response & thread_ts & posted & fetched
        & messages & completion & choice & others & deleted & said
        & -> & Hchoices).
  split; [reflexivity|]. split; [reflexivity|].
  exists channel, thread_ts, posted, deleted. auto.
Qed.

(** C10: on the happy path the text of the final post is the content of the
    first choice of the completion response, unchanged, and the final post
    goes to the channel and thread root the placeholder was posted to. *)
Theorem answer_is_first_choice (t : list entry) :
  fst (run w [] (should_run_completion BOT_NAME event)) = inr true ->
  run w [] (run_completion BOT_NAME event) = (inr tt, t) ->
  exists before channel thread_ts posted fetched messages completion choice
         others delete said,
    t = before ++
        [Entry (chat_postMessage channel thread_ts "生成なう") (inr posted);
         fetched;
         Entry (ChatCompletion_create "gpt-3.5-turbo" messages) (inr completion);
         delete;
         Entry (say (content (message choice)) channel thread_ts) (inr said)]
    /\ choices completion = choice :: others.
Proof.
  intros Htriggered Hrun.
  destruct (happy_path_trace _ Htriggered Hrun)
    as (channel & ts & thread & response & thread_ts & posted & fetched
        & messages & completion & choice & others & deleted & said
        & -> & Hchoices).
  eexists [_; _]. repeat eexists. exact Hchoices.
Qed.

(** C5, as amended: when a triggered handler raises at the completion
    request or later, the exception of a failed call is the one the handler
    raises, and the calls made are: up to the completion request only (the
    request failed, or its response has no first choice), so that nothing is
    deleted or posted; or up to a delete that failed, so that nothing is
    posted; or up to a final post that failed, after the delete of the
    placeholder had returned. *)
Theorem failure_after_request (e : exn) (t : list entry) :
  fst (run w [] (should_run_completion BOT_NAME event)) = inr true ->
  run w [] (run_completion BOT_NAME event) = (inl e, t) ->
  In "ChatCompletion.create" (methods t) ->
  (forall e', last t ≫= raised = Some e' -> e' = e)
  /\ ((methods t = ["conversations_replies"; "conversations_replies";
                    "chat_postMessage"; "conversations_replies";
                    "ChatCompletion.create"]
       /\ (outcomes t = [true; true; true; true; false]
           \/ outcomes t = [true; true; true; true; true]))
      \/ (methods t = ["conversations_replies"; "conversations_replies";
                       "chat_postMessage"; "conversations_replies";
                       "ChatCompletion.create"; "chat_delete"]
          /\ outcomes t = [true; true; true; true; true; false])
      \/ (methods t = ["conversations_replies"; "conversations_replies";
                       "chat_postMessage"; "conversations_replies";
                       "ChatCompletion.create"; "chat_delete"; "say"]
          /\ outcomes t = [true; true; true; true; true; true; false])).
Proof.
  intros Htriggered Hrun Hrequested.
  destruct (triggered_run _ _ Htriggered Hrun)
    as (channel & ts & thread & Hchannel & Hts & Hrest).
  clear Hrun. unfold create_messages in Hrest.
  run_cases_in Hrest; try discriminate;
    injection Hrest as <- <-;
    try (exfalso; cbn in Hrequested; intuition discriminate);
    (split; [cbn; congruence|cbn; auto 6]).
Qed.

End Orchestrator.

(** * The properties on the example thread *)

Lemma edit_event_never_triggers_witness :
  run happy_world [] (should_run_completion example_bot edited_event)
  = (inr false, []).
Proof.
  apply (edit_event_never_triggers example_bot happy_world [] edited_event).
  vm_compute. reflexivity.
Defined.

Lemma empty_thread_raises_witness :
  run empty_thread_world [] (should_run_completion example_bot example_event)
  = (inl IndexError,
     [] ++ [Entry (conversations_replies "C1"
                     (default "1.0" (example_event !! "thread_ts")))
                  (inr {| replies_messages := [] |})]).
Proof.
  apply (empty_thread_raises example_bot empty_thread_world [] example_event
           "C1" "1.0" {| replies_messages := [] |}).
  - vm_compute. discriminate.
  - vm_compute. reflexivity.
  - vm_compute. reflexivity.
  - vm_compute. reflexivity.
  - vm_compute. reflexivity.
Defined.

Lemma trigger_iff_mentioned_and_last_not_bot_witness :
  exists b : bool,
    run happy_world [] (should_run_completion example_bot example_event)
    = (inr b,
       [] ++ [Entry (conversations_replies "C1"
                       (default "1.0" (example_event !! "thread_ts")))
                    (inr {| replies_messages := [example_message] |})])
    /\ (b = true <->
        str_in (BOT_MENTION example_bot) "<@UBOT> hello there" = true
        /\ Some "U1" <> example_bot).
Proof.
  apply (trigger_iff_mentioned_and_last_not_bot example_bot happy_world []
           example_event "C1" "1.0" {| replies_messages := [example_message] |})
    with (first := example_message) (final := example_message) (rest := []).
  - vm_compute. discriminate.
  - vm_compute. reflexivity.
  - vm_compute. reflexivity.
  - vm_compute. reflexivity.
  - reflexivity.
  - reflexivity.
  - vm_compute. reflexivity.
  - vm_compute. reflexivity.
Defined.

Lemma create_messages_shape_witness :
  run happy_world [] (create_messages example_bot example_event)
  = (inr (prompt_message "system" SYSTEM_PROMPT
          :: map (fun entry : string * string =>
                    prompt_message
                      (if decide (Some (fst entry) = example_bot)
                       then "assistant" else "user")
                      (delete_prefix example_bot (snd entry)))
                 [("U1", "<@UBOT> hello there")]),
     [] ++ [Entry (conversations_replies "C1"
                     (default "1.0" (example_event !! "thread_ts")))
                  (inr {| replies_messages := [example_message] |})]).
Proof.
  apply (create_messages_shape example_bot happy_world [] example_event
           "C1" "1.0" {| replies_messages := [example_message] |}).
  - vm_compute. reflexivity.
  - vm_compute. reflexivity.
  - vm_compute. reflexivity.
  - repeat constructor.
Defined.

Lemma happy_path_calls_witness :
  methods (snd (run happy_world [] (run_completion example_bot example_event)))
  = ["conversations_replies"; "conversations_replies"; "chat_postMessage";
     "conversations_replies"; "ChatCompletion.create"; "chat_delete"; "say"]
  /\ outcomes (snd (run happy_world [] (run_completion example_bot example_event)))
     = [true; true; true; true; true; true; true]
  /\ exists channel thread_ts posted deleted,
       snd (run happy_world [] (run_completion example_bot example_event)) !! 2
       = Some (Entry (chat_postMessage channel thread_ts "生成なう") (inr posted))
       /\ snd (run happy_world [] (run_completion example_bot example_event)) !! 5
          = Some (Entry (chat_delete channel (posted_ts posted)) (inr deleted)).
Proof.
  apply (happy_path_calls example_bot happy_world example_event).
  - vm_compute. reflexivity.
  - vm_compute. reflexivity.
Defined.

Lemma answer_is_first_choice_witness :
  exists before channel thread_ts posted fetched messages completion choice
         others delete said,
    snd (run happy_world [] (run_completion example_bot example_event))
    = before ++
      [Entry (chat_postMessage channel thread_ts "生成なう") (inr posted);
       fetched;
       Entry (ChatCompletion_create "gpt-3.5-turbo" messages) (inr completion);
       delete;
       Entry (say (content (message choice)) channel thread_ts) (inr said)]
    /\ choices completion = choice :: others.
Proof.
  apply (answer_is_first_choice example_bot happy_world example_event).
  - vm_compute. reflexivity.
  - vm_compute. reflexivity.
Defined.

(** C5 as stated fails: when the final post raises, the delete of the
    placeholder has already returned. *)
Lemma placeholder_deleted_before_failed_post :
  fst (run final_post_fails_world []
         (should_run_completion example_bot example_event)) = inr true
  /\ fst (run final_post_fails_world []
            (run_completion example_bot example_event))
     = inl (ApiError "channel_not_found")
  /\ methods (snd (run final_post_fails_world []
                     (run_completion example_bot example_event)))
     = ["conversations_replies"; "conversations_replies"; "chat_postMessage";
        "conversations_replies"; "ChatCompletion.create"; "chat_delete"; "say"]
  /\ outcomes (snd (run final_post_fails_world []
                      (run_completion example_bot example_event)))
     = [true; true; true; true; true; true; false].
Proof. vm_compute. repeat split. Qed.

Lemma failure_after_request_witness :
  (forall e',
      last (snd (run request_fails_world []
                   (run_completion example_bot example_event))) ≫= raised
      = Some e' ->
      e' = ApiError "timeout")
  /\ ((methods (snd (run request_fails_world []
                       (run_completion example_bot example_event)))
       = ["conversations_replies"; "conversations_replies";
          "chat_postMessage"; "conversations_replies";
          "ChatCompletion.create"]
       /\ (outcomes (snd (run request_fails_world []
                            (run_completion example_bot example_event)))
           = [true; true; true; true; false]
           \/ outcomes (snd (run request_fails_world []
                               (run_completion example_bot example_event)))
              = [true; true; true; true; true]))
      \/ (methods (snd (run request_fails_world []
                          (run_completion example_bot example_event)))
          = ["conversations_replies"; "conversations_replies";
             "chat_postMessage"; "conversations_replies";
             "ChatCompletion.create"; "chat_delete"]
          /\ outcomes (snd (run request_fails_world []
                              (run_completion example_bot example_event)))
             = [true; true; true; true; true; false])
      \/ (methods (snd (run request_fails_world []
                          (run_completion example_bot example_event)))
          = ["conversations_replies"; "conversations_replies";
             "chat_postMessage"; "conversations_replies";
             "ChatCompletion.create"; "chat_delete"; "say"]
          /\ outcomes (snd (run request_fails_world []
                              (run_completion example_bot example_event)))
             = [true; true; true; true; true; true; false])).
Proof.
  apply (failure_after_request example_bot request_fails_world example_event).
  - vm_compute. reflexivity.
  - vm_compute. reflexivity.
  - vm_compute. intuition.
Defined.

(** * Further properties of [delete_prefix] *)

Lemma append_cons c (p s : string) : String c p +:+ s = String c (p +:+ s).
Proof. reflexivity. Qed.

Lemma startswith_append (old s : string) : startswith (old +:+ s) old = true.
Proof.
  induction old as [|a old IH]; [apply startswith_empty|].
  rewrite append_cons. cbn [startswith]. rewrite Ascii.eqb_refl. exact IH.
Qed.

(** The scan jumps over the characters it still has to skip. *)
Lemma replace_from_skip old new (p s : string) :
  replace_from old new (String.length p) (p +:+ s) = replace_from old new 0 s.
Proof.
  induction p as [|c p IH]; [reflexivity|].
  rewrite append_cons. exact IH.
Qed.

Lemma replace_leading_occurrence a old s :
  replace (String a old +:+ s) (String a old) "" = replace s (String a old) "".
Proof.
  unfold replace. rewrite append_cons, replace_from_cons.
  rewrite <- append_cons, startswith_append, append_empty_l.
  cbn [String.length]. rewrite Nat.sub_1_r. cbn [Nat.pred].
  apply replace_from_skip.
Qed.

Lemma occurs_str_in c s : occurs c s = false -> str_in (String c "") s = false.
Proof.
  induction s as [|b s IH]; [reflexivity|].
  cbn [occurs str_in startswith]. intros Hocc.
  apply orb_false_iff in Hocc as [Hcb Hs].
  rewrite Hcb, (IH Hs). reflexivity.
Qed.

Lemma occurs_startswith c s :
  occurs c s = false -> startswith s (String c "") = false.
Proof.
  intros Hocc. destruct (startswith s (String c "")) eqn:Hsw; [|reflexivity].
  apply startswith_occurs in Hsw. congruence.
Qed.

Lemma no_prefix_found (s : string) :
  List.find (startswith s) prefixes = None
  <-> startswith s " " = false /\ startswith s newline = false.
Proof.
  unfold prefixes. cbn [List.find].
  destruct (startswith s " "), (startswith s newline); intuition discriminate.
Qed.

Section DeletePrefixMore.

Variable BOT_NAME : option string.

Lemma delete_prefix_occurs c (message : string) :
  occurs c message = false -> occurs c (delete_prefix BOT_NAME message) = false.
Proof.
  funelim (delete_prefix BOT_NAME message); intros Hocc.
  - match goal with IH : forall c, _ -> occurs c _ = false |- _ => apply IH end.
    apply replace_occurs, replace_occurs, Hocc.
  - apply replace_occurs, Hocc.
Qed.

(** X1: the result of [delete_prefix] starts with neither a space nor a
    newline. *)
Theorem delete_prefix_result_not_indented (message : string) :
  startswith (delete_prefix BOT_NAME message) " " = false
  /\ startswith (delete_prefix BOT_NAME message) newline = false.
Proof. apply no_prefix_found, delete_prefix_no_leading. Qed.

(** X2: [delete_prefix] only deletes: its result is never longer than the
    message, and a character that does not occur in the message does not
    occur in the result. *)
Theorem delete_prefix_only_deletes (message : string) :
  String.length (delete_prefix BOT_NAME message) <= String.length message
  /\ forall c, occurs c (delete_prefix BOT_NAME message) = true ->
               occurs c message = true.
Proof.
  split; [apply delete_prefix_length|].
  intros c Hres. destruct (occurs c message) eqn:Hocc; [reflexivity|].
  rewrite (delete_prefix_occurs c message Hocc) in Hres. discriminate.
Qed.

(** X4: when the mention-free text starts with one of the two prefixes, the
    first such prefix in the order space, newline is removed from the whole
    message: its character occurs nowhere in the result. *)
Theorem found_prefix_removed_everywhere (message : string) (c : ascii) :
  List.find (startswith (replace message (BOT_MENTION BOT_NAME) "")) prefixes
  = Some (String c "") ->
  occurs c (delete_prefix BOT_NAME message) = false.
Proof.
  intros Hfound. rewrite delete_prefix_step, Hfound.
  apply delete_prefix_occurs, replace_char_gone.
Qed.

(** X5: a text that starts with neither a space nor a newline is returned
    unchanged exactly when it contains no mention token. *)
Theorem delete_prefix_identity_iff (text : string) :
  startswith text " " = false ->
  startswith text newline = false ->
  delete_prefix BOT_NAME text = text
  <-> str_in (BOT_MENTION BOT_NAME) text = false.
Proof.
  intros Hspace Hnewline. apply delete_prefix_fixed, no_prefix_found.
  split; assumption.
Qed.

(** X6: a message made of spaces and newlines only is reduced to the empty
    string. *)
Theorem delete_prefix_blank (message : string) :
  (forall c, occurs c message = true -> c = " "%char \/ c = "010"%char) ->
  delete_prefix BOT_NAME message = "".
Proof.
  intros Hblank.
  destruct (proj1 (no_prefix_found _) (delete_prefix_no_leading BOT_NAME message))
    as [Hspace Hnewline].
  pose proof (delete_prefix_occurs) as Hocc.
  destruct (delete_prefix BOT_NAME message) as [|c r] eqn:Hres; [reflexivity|].
  exfalso.
  assert (occurs c message = true) as Hc.
  { destruct (occurs c message) eqn:Hcm; [reflexivity|].
    specialize (Hocc c message Hcm). rewrite Hres in Hocc.
    cbn [occurs] in Hocc. rewrite Ascii.eqb_refl in Hocc. discriminate. }
  unfold newline in Hnewline. cbn [startswith] in Hspace, Hnewline.
  rewrite startswith_empty in Hspace, Hnewline.
  destruct (Hblank c Hc) as [-> | ->];
    [rewrite Ascii.eqb_refl in Hspace | rewrite Ascii.eqb_refl in Hnewline];
    discriminate.
Qed.

(** X7: the intended use.  A message that is the mention token, one space
    and a text with no space, no newline and no mention token is reduced to
    that text. *)
Theorem delete_prefix_mention_then_text (text : string) :
  str_in (BOT_MENTION BOT_NAME) text = false ->
  occurs " " text = false ->
  occurs "010" text = false ->
  delete_prefix BOT_NAME (BOT_MENTION BOT_NAME +:+ " " +:+ text) = text.
Proof.
  intros Hmention Hspace Hnewline.
  assert (replace (BOT_MENTION BOT_NAME +:+ " " +:+ text) (BOT_MENTION BOT_NAME) ""
          = " " +:+ text) as Hstripped.
  { rewrite BOT_MENTION_nonempty, replace_leading_occurrence.
    apply replace_absent. rewrite <- BOT_MENTION_nonempty.
    change (" " +:+ text) with (String " " text).
    change (str_in (BOT_MENTION BOT_NAME) (String " " text))
      with (startswith (String " " text) (BOT_MENTION BOT_NAME)
            || str_in (BOT_MENTION BOT_NAME) text).
    rewrite Hmention. reflexivity. }
  rewrite delete_prefix_step, Hstripped.
  unfold prefixes at 1. cbn [List.find]. rewrite (startswith_append " " text).
  assert (replace (" " +:+ text) " " "" = text) as ->.
  { rewrite (replace_leading_occurrence " " "" text).
    apply replace_absent, occurs_str_in, Hspace. }
  apply delete_prefix_fixed; [|exact Hmention].
  apply no_prefix_found. split; apply occurs_startswith; assumption.
Qed.

End DeletePrefixMore.

Lemma found_prefix_removed_everywhere_witness :
  occurs " " (delete_prefix example_bot "<@UBOT> a b c") = false.
Proof.
  apply (found_prefix_removed_everywhere example_bot "<@UBOT> a b c" " ").
  vm_compute. reflexivity.
Defined.

Lemma delete_prefix_identity_iff_witness :
  delete_prefix example_bot "a b" = "a b"
  <-> str_in (BOT_MENTION example_bot) "a b" = false.
Proof.
  apply (delete_prefix_identity_iff example_bot "a b"); vm_compute; reflexivity.
Defined.

Lemma delete_prefix_blank_witness :
  delete_prefix example_bot (" " +:+ newline +:+ " ") = "".
Proof.
  apply (delete_prefix_blank example_bot (" " +:+ newline +:+ " ")).
  intros c. vm_compute.
  destruct c as [[] [] [] [] [] [] [] []]; vm_compute; intros H;
    first [discriminate H | left; reflexivity | right; reflexivity].
Defined.

Lemma delete_prefix_mention_then_text_witness :
  delete_prefix example_bot (BOT_MENTION example_bot +:+ " " +:+ "hello") = "hello".
Proof.
  apply (delete_prefix_mention_then_text example_bot "hello");
    vm_compute; reflexivity.
Defined.

(** * Further properties of the trigger filter *)

Section TriggerFilterEdges.

Variable BOT_NAME : option string.
Variable w : world.
Variable h : list entry.
Variable event : gmap string string.

(** X8: whatever the event and the world, the filter performs at most one
    call, and that call is the fetch of the thread of the event: by the
    event's [thread_ts] if it has one, by its [ts] otherwise. *)
Theorem filter_calls_at_most_one_fetch :
  snd (run w h (should_run_completion BOT_NAME event)) = h
  \/ exists channel ts outcome,
       event !! "channel" = Some channel /\ event !! "ts" = Some ts
       /\ snd (run w h (should_run_completion BOT_NAME event))
          = h ++ [Entry (conversations_replies channel
                           (default ts (event !! "thread_ts"))) outcome].
Proof.
  destruct (run w h (should_run_completion BOT_NAME event)) as [o t] eqn:Hrun.
  unfold should_run_completion in Hrun.
  run_cases_in Hrun; injection Hrun as <- <-; cbn [snd]; eauto 8.
Qed.

Hypothesis not_edit : event !! "subtype" <> Some "message_changed".

(** X9: a non-edit event without ["channel"] makes the filter raise
    [KeyError] before any call. *)
Theorem filter_missing_channel :
  event !! "channel" = None ->
  run w h (should_run_completion BOT_NAME event) = (inl (KeyError "channel"), h).
Proof.
  intros Hchannel. unfold should_run_completion.
  destruct (decide (event !! "subtype" = Some "message_changed")); [contradiction|].
  run_steps. rewrite Hchannel. reflexivity.
Qed.

Variable channel : string.
Hypothesis event_channel : event !! "channel" = Some channel.

(** X10: a non-edit event without ["ts"] makes the filter raise [KeyError]
    before any call, also when the event has a ["thread_ts"]: the default
    of [event.get] is evaluated first. *)
Theorem filter_missing_ts :
  event !! "ts" = None ->
  run w h (should_run_completion BOT_NAME event) = (inl (KeyError "ts"), h).
Proof.
  intros Hts. unfold should_run_completion.
  destruct (decide (event !! "subtype" = Some "message_changed")); [contradiction|].
  run_steps. rewrite event_channel. run_steps. rewrite Hts. reflexivity.
Qed.

Variable ts : string.
Hypothesis event_ts : event !! "ts" = Some ts.

(** X11: an exception of the thread fetch is the exception of the filter,
    which makes no other call. *)
Theorem filter_fetch_failure (e : exn) :
  w h (conversations_replies channel (default ts (event !! "thread_ts")))
  = inl e ->
  run w h (should_run_completion BOT_NAME event)
  = (inl e,
     h ++ [Entry (conversations_replies channel
                    (default ts (event !! "thread_ts"))) (inl e)]).
Proof.
  intros Hfetch. unfold should_run_completion.
  destruct (decide (event !! "subtype" = Some "message_changed")); [contradiction|].
  run_steps. rewrite event_channel. run_steps. rewrite event_ts. run_steps.
  rewrite Hfetch. reflexivity.
Qed.

Variable thread : Replies.
Hypothesis fetched :
  w h (conversations_replies channel (default ts (event !! "thread_ts")))
  = inr thread.

(** X12: when the first message of the thread has no ["text"], the filter
    raises [KeyError]. *)
Theorem filter_first_without_text
    (first : gmap string string) (rest : list (gmap string string)) :
  replies_messages thread = first :: rest ->
  first !! "text" = None ->
  run w h (should_run_completion BOT_NAME event)
  = (inl (KeyError "text"),
     h ++ [Entry (conversations_replies channel
                    (default ts (event !! "thread_ts"))) (inr thread)]).
Proof.
  intros Hmessages Htext. unfold should_run_completion.
  destruct (decide (event !! "subtype" = Some "message_changed")); [contradiction|].
  run_steps. rewrite event_channel. run_steps. rewrite event_ts. run_steps.
  rewrite fetched. run_steps. rewrite Hmessages. run_steps.
  rewrite Htext. reflexivity.
Qed.

(** X13: when the last message of the thread has no ["user"], the filter
    raises [KeyError], whether or not the first message mentions the bot. *)
Theorem filter_last_without_user
    (first final : gmap string string) (rest : list (gmap string string))
    (origin_message : string) :
  replies_messages thread = first :: rest ->
  first !! "text" = Some origin_message ->
  last (first :: rest) = Some final ->
  final !! "user" = None ->
  run w h (should_run_completion BOT_NAME event)
  = (inl (KeyError "user"),
     h ++ [Entry (conversations_replies channel
                    (default ts (event !! "thread_ts"))) (inr thread)]).
Proof.
  intros Hmessages Htext Hlast Huser. unfold should_run_completion.
  destruct (decide (event !! "subtype" = Some "message_changed")); [contradiction|].
  run_steps. rewrite event_channel. run_steps. rewrite event_ts. run_steps.
  rewrite fetched. run_steps. rewrite Hmessages. run_steps.
  rewrite Htext. run_steps. rewrite Hlast. run_steps. rewrite Huser.
  reflexivity.
Qed.

End TriggerFilterEdges.

Lemma filter_missing_channel_witness :
  run happy_world [] (should_run_completion example_bot event_without_channel)
  = (inl (KeyError "channel"), []).
Proof.
  apply (filter_missing_channel example_bot happy_world [] event_without_channel).
  - vm_compute. discriminate.
  - vm_compute. reflexivity.
Defined.

Lemma filter_missing_ts_witness :
  event_without_ts !! "thread_ts" = Some "1.0"
  /\ run happy_world [] (should_run_completion example_bot event_without_ts)
     = (inl (KeyError "ts"), []).
Proof.
  split; [vm_compute; reflexivity|].
  apply (filter_missing_ts example_bot happy_world [] event_without_ts)
    with (channel := "C1").
  - vm_compute. discriminate.
  - vm_compute. reflexivity.
  - vm_compute. reflexivity.
Defined.

Lemma filter_fetch_failure_witness :
  run unreachable_world [] (should_run_completion example_bot reply_event)
  = (inl (ApiError "ratelimited"),
     [] ++ [Entry (conversations_replies "C1"
                     (default "3.0" (reply_event !! "thread_ts")))
                  (inl (ApiError "ratelimited"))]).
Proof.
  apply (filter_fetch_failure example_bot unreachable_world [] reply_event)
    with (channel := "C1") (ts := "3.0").
  - vm_compute. discriminate.
  - vm_compute. reflexivity.
  - vm_compute. reflexivity.
  - reflexivity.
Defined.

Lemma filter_first_without_text_witness :
  run textless_world [] (should_run_completion example_bot example_event)
  = (inl (KeyError "text"),
     [] ++ [Entry (conversations_replies "C1"
                     (default "1.0" (example_event !! "thread_ts")))
                  (inr {| replies_messages :=
                            [textless_message; example_message] |})]).
Proof.
  apply (filter_first_without_text example_bot textless_world [] example_event)
    with (channel := "C1") (ts := "1.0")
         (first := textless_message) (rest := [example_message]).
  - vm_compute. discriminate.
  - vm_compute. reflexivity.
  - vm_compute. reflexivity.
  - reflexivity.
  - reflexivity.
  - vm_compute. reflexivity.
Defined.

Lemma filter_last_without_user_witness :
  run authorless_world [] (should_run_completion example_bot example_event)
  = (inl (KeyError "user"),
     [] ++ [Entry (conversations_replies "C1"
                     (default "1.0" (example_event !! "thread_ts")))
                  (inr {| replies_messages :=
                            [example_message; authorless_message] |})]).
Proof.
  apply (filter_last_without_user example_bot authorless_world [] example_event)
    with (channel := "C1") (ts := "1.0") (first := example_message) (final := authorless_message)
         (rest := [authorless_message]) (origin_message := "<@UBOT> hello there").
  - vm_compute. discriminate.
  - vm_compute. reflexivity.
  - vm_compute. reflexivity.
  - reflexivity.
  - reflexivity.
  - vm_compute. reflexivity.
  - reflexivity.
  - vm_compute. reflexivity.
Defined.

(** * Further properties of the history adapter *)

Lemma lookup_prompt_role (role content : string) :
  prompt_message role content !! "role" = Some role.
Proof. unfold prompt_message. apply lookup_insert_eq. Qed.

Lemma lookup_prompt_content (role content : string) :
  prompt_message role content !! "content" = Some content.
Proof.
  unfold prompt_message. rewrite lookup_insert_ne by discriminate.
  apply lookup_singleton_eq.
Qed.

Section HistoryAdapterEdges.

Variable BOT_NAME : option string.
Variable w : world.
Variable h : list entry.

(** A loop that returns has read an author and a text from every entry. *)
Lemma for_each_message_returns (thread_messages : list (gmap string string)) :
  forall messages out h',
    run w h (for_each_message BOT_NAME thread_messages messages) = (inr out, h') ->
    exists authored,
      Forall2 authored_by thread_messages authored
      /\ out = messages ++ map (prompt_of BOT_NAME) authored.
Proof.
  induction thread_messages as [|m rest IH]; intros messages out h' Hrun.
  - injection Hrun as <- _. exists []. split; [constructor|].
    simpl. rewrite app_nil_r. reflexivity.
  - cbn [for_each_message] in Hrun. run_steps_in Hrun.
    destruct (m !! "user") as [user|] eqn:Huser; [|discriminate].
    run_steps_in Hrun.
    destruct (m !! "text") as [text|] eqn:Htext; [|discriminate].
    run_steps_in Hrun.
    apply IH in Hrun as (authored & Hauthored & ->).
    exists ((user, text) :: authored). split.
    + constructor; [split; assumption|assumption].
    + rewrite <- app_assoc. reflexivity.
Qed.

(** The loop stops at the first entry that lacks a key. *)
Lemma for_each_message_malformed
    (good : list (gmap string string)) (authored : list (string * string))
    (bad : gmap string string) (rest : list (gmap string string)) :
  Forall2 authored_by good authored ->
  bad !! "user" = None \/ bad !! "text" = None ->
  forall messages h0,
    run w h0 (for_each_message BOT_NAME (good ++ bad :: rest) messages)
    = (inl (KeyError match bad !! "user" with
                     | None => "user"
                     | Some _ => "text"
                     end), h0).
Proof.
  intros Hgood Hbad.
  induction Hgood as [|m [user text] good authored [Huser Htext] _ IH];
    intros messages h0.
  - cbn [app for_each_message]. run_steps.
    destruct (bad !! "user") as [user|]; [|reflexivity].
    run_steps. destruct Hbad as [Hbad|Hbad]; [discriminate|].
    rewrite Hbad. reflexivity.
  - cbn [app for_each_message]. cbn [fst snd] in Huser, Htext. run_steps.
    rewrite Huser. run_steps. rewrite Htext. run_steps. apply IH.
Qed.

Variable event : gmap string string.

(** X14: whatever the event and the world, [create_messages] performs at
    most one call, the fetch of the thread of the event. *)
Theorem create_messages_calls_at_most_one_fetch :
  snd (run w h (create_messages BOT_NAME event)) = h
  \/ exists channel ts outcome,
       event !! "channel" = Some channel /\ event !! "ts" = Some ts
       /\ snd (run w h (create_messages BOT_NAME event))
          = h ++ [Entry (conversations_replies channel
                           (default ts (event !! "thread_ts"))) outcome].
Proof.
  destruct (run w h (create_messages BOT_NAME event)) as [o t] eqn:Hrun.
  unfold create_messages in Hrun.
  run_cases_in Hrun; injection Hrun as <- <-; cbn [snd]; eauto 8.
Qed.

(** X15: whenever [create_messages] returns, its result is the system
    message followed by as many messages as the fetched thread has entries,
    each with role ["assistant"] or ["user"] and a content that starts with
    neither a space nor a newline. *)
Theorem create_messages_returns_clean
    (out : list (gmap string string)) (t : list entry) :
  run w h (create_messages BOT_NAME event) = (inr out, t) ->
  exists channel ts thread rest,
    t = h ++ [Entry (conversations_replies channel
                       (default ts (event !! "thread_ts"))) (inr thread)]
    /\ out = prompt_message "system" SYSTEM_PROMPT :: rest
    /\ length rest = length (replies_messages thread)
    /\ Forall (fun m : gmap string string =>
                 (m !! "role" = Some "assistant" \/ m !! "role" = Some "user")
                 /\ exists content,
                      m !! "content" = Some content
                      /\ startswith content " " = false
                      /\ startswith content newline = false)
              rest.
Proof.
  intros Hrun. unfold create_messages in Hrun. run_steps_in Hrun.
  destruct (event !! "channel") as [channel|]; [|discriminate].
  run_steps_in Hrun.
  destruct (event !! "ts") as [ts|]; [|discriminate].
  run_steps_in Hrun.
  destruct (w h (conversations_replies channel
                   (default ts (event !! "thread_ts")))) as [e|thread];
    [discriminate|].
  run_steps_in Hrun.
  destruct (run _ _ (for_each_message _ _ _)) as [[e|out'] h'] eqn:Hloop;
    [discriminate|].
  injection Hrun as <- <-.
  pose proof (for_each_message_pure BOT_NAME (replies_messages thread)
                ([] ++ [prompt_message "system" SYSTEM_PROMPT]))
    as [outcome Hpure].
  rewrite Hpure in Hloop. injection Hloop as -> <-.
  specialize (Hpure w h).
  apply for_each_message_returns in Hpure as (authored & Hauthored & ->).
  exists channel, ts, thread, (map (prompt_of BOT_NAME) authored).
  split; [reflexivity|]. split; [reflexivity|]. split.
  - rewrite length_map. symmetry. apply (Forall2_length _ _ _ Hauthored).
  - apply Forall_map, Forall_forall. intros [user text] _. unfold prompt_of.
    cbn [fst snd]. rewrite lookup_prompt_role, lookup_prompt_content. split.
    + destruct (decide (Some user = BOT_NAME)); auto.
    + eexists. split; [reflexivity|].
      apply no_prefix_found, delete_prefix_no_leading.
Qed.

(** X16: when the fetched thread has an entry without ["user"] or
    ["text"], all entries before it having both, [create_messages] raises
    [KeyError] for the key that entry lacks, ["user"] first. *)
Theorem create_messages_malformed_entry
    (channel ts : string) (thread : Replies)
    (good : list (gmap string string)) (authored : list (string * string))
    (bad : gmap string string) (rest : list (gmap string string)) :
  event !! "channel" = Some channel ->
  event !! "ts" = Some ts ->
  w h (conversations_replies channel (default ts (event !! "thread_ts")))
  = inr thread ->
  replies_messages thread = good ++ bad :: rest ->
  Forall2 authored_by good authored ->
  bad !! "user" = None \/ bad !! "text" = None ->
  run w h (create_messages BOT_NAME event)
  = (inl (KeyError match bad !! "user" with
                   | None => "user"
                   | Some _ => "text"
                   end),
     h ++ [Entry (conversations_replies channel
                    (default ts (event !! "thread_ts"))) (inr thread)]).
Proof.
  intros Hchannel Hts Hfetched Hmessages Hgood Hbad. unfold create_messages.
  run_steps. rewrite Hchannel. run_steps. rewrite Hts. run_steps.
  rewrite Hfetched. run_steps. rewrite Hmessages.
  apply (for_each_message_malformed _ _ _ _ Hgood Hbad).
Qed.

End HistoryAdapterEdges.

Lemma create_messages_returns_clean_witness :
  exists channel ts thread rest,
    snd (run happy_world [] (create_messages example_bot example_event))
    = [] ++ [Entry (conversations_replies channel
                      (default ts (example_event !! "thread_ts"))) (inr thread)]
    /\ [prompt_message "system" SYSTEM_PROMPT;
        prompt_message "user" "hellothere"]
       = prompt_message "system" SYSTEM_PROMPT :: rest
    /\ length rest = length (replies_messages thread)
    /\ Forall (fun m : gmap string string =>
                 (m !! "role" = Some "assistant" \/ m !! "role" = Some "user")
                 /\ exists content,
                      m !! "content" = Some content
                      /\ startswith content " " = false
                      /\ startswith content newline = false)
              rest.
Proof.
  apply (create_messages_returns_clean example_bot happy_world [] example_event).
  vm_compute. reflexivity.
Defined.

Lemma create_messages_malformed_entry_witness :
  run authorless_world [] (create_messages example_bot example_event)
  = (inl (KeyError "user"),
     [] ++ [Entry (conversations_replies "C1"
                     (default "1.0" (example_event !! "thread_ts")))
                  (inr {| replies_messages :=
                            [example_message; authorless_message] |})]).
Proof.
  apply (create_messages_malformed_entry example_bot authorless_world []
           example_event "C1" "1.0"
           {| replies_messages := [example_message; authorless_message] |}
           [example_message] [("U1", "<@UBOT> hello there")]
           authorless_message []).
  - vm_compute. reflexivity.
  - vm_compute. reflexivity.
  - vm_compute. reflexivity.
  - reflexivity.
  - repeat constructor.
  - left. vm_compute. reflexivity.
Defined.

(** * Further properties of the completion orchestrator *)

(** Case analysis that keeps the run of the loop of [create_messages] as a
    hypothesis. *)
Ltac run_case_keep_in H :=
  match type of H with
  | context [match ?x with _ => _ end] =>
      lazymatch x with
      | context [match _ with _ => _ end] => fail
      | _ =>
          first [ match goal with E : x = _ |- _ => rewrite E in H end
                | destruct x eqn:? ]
      end
  end.
Ltac run_cases_keep_in H :=
  repeat (run_steps_in H; run_case_keep_in H); run_steps_in H.

Section OrchestratorEdges.

Variable BOT_NAME : option string.
Variable w : world.
Variable event : gmap string string.

(** X17: when the filter does not return [True], the handler ends as the
    filter did and makes no call of its own: it returns if the filter
    returned [False], and raises the filter's exception otherwise. *)
Theorem handler_stops_at_filter :
  fst (run w [] (should_run_completion BOT_NAME event)) <> inr true ->
  run w [] (run_completion BOT_NAME event)
  = (match fst (run w [] (should_run_completion BOT_NAME event)) with
     | inl e => inl e
     | inr _ => inr tt
     end,
     snd (run w [] (should_run_completion BOT_NAME event))).
Proof.
  intros Hfilter. unfold run_completion. rewrite run_bind.
  destruct (run w [] (should_run_completion BOT_NAME event)) as [[e|[|]] h1];
    cbn [fst snd] in *; [reflexivity|contradiction|reflexivity].
Qed.

(** X18: whatever the event and the world, the calls of the handler are an
    initial part of the sequence fetch, fetch, post, fetch, completion
    request, delete, post; every call before the last one made has returned,
    and all of them when the handler returns. *)
Theorem handler_calls_in_order :
  (exists later,
      ["conversations_replies"; "conversations_replies"; "chat_postMessage";
       "conversations_replies"; "ChatCompletion.create"; "chat_delete"; "say"]
      = methods (snd (run w [] (run_completion BOT_NAME event))) ++ later)
  /\ forallb returned
       (removelast (snd (run w [] (run_completion BOT_NAME event)))) = true
  /\ match fst (run w [] (run_completion BOT_NAME event)) with
     | inr _ =>
         forallb returned (snd (run w [] (run_completion BOT_NAME event)))
         = true
     | inl _ => True
     end.
Proof.
  destruct (run w [] (run_completion BOT_NAME event)) as [o t] eqn:Hrun.
  unfold run_completion, should_run_completion, create_messages in Hrun.
  repeat (run_steps_in Hrun; cbn [negb] in Hrun; run_steps_in Hrun;
          run_case_in Hrun);
    run_steps_in Hrun; cbn [negb] in Hrun; run_steps_in Hrun;
    injection Hrun as <- <-; cbn;
    (split; [eexists; reflexivity|split; [reflexivity|trivial]]).
Qed.

(** The run of a triggered handler that returns, with the thread the prompt
    was made from. *)
Lemma happy_path_prompt (t : list entry) :
  fst (run w [] (should_run_completion BOT_NAME event)) = inr true ->
  run w [] (run_completion BOT_NAME event) = (inr tt, t) ->
  exists channel ts thread response first others thread_ts posted fetched
         authored completion deleted said text,
    event !! "channel" = Some channel /\ event !! "ts" = Some ts
    /\ replies_messages response = first :: others
    /\ first !! "ts" = Some thread_ts
    /\ Forall2 authored_by (replies_messages fetched) authored
    /\ t = [Entry (conversations_replies channel
                     (default ts (event !! "thread_ts"))) (inr thread);
            Entry (conversations_replies channel ts) (inr response);
            Entry (chat_postMessage channel thread_ts "生成なう") (inr posted);
            Entry (conversations_replies channel
                     (default ts (event !! "thread_ts"))) (inr fetched);
            Entry (ChatCompletion_create "gpt-3.5-turbo"
                     (prompt_message "system" SYSTEM_PROMPT
                      :: map (prompt_of BOT_NAME) authored))
                  (inr completion);
            Entry (chat_delete channel (posted_ts posted)) (inr deleted);
            Entry (say text channel thread_ts) (inr said)].
Proof.
  intros Htriggered Hrun.
  destruct (triggered_run _ _ _ _ _ Htriggered Hrun)
    as (channel & ts & thread & Hchannel & Hts & Hrest).
  clear Hrun. unfold create_messages in Hrest.
  run_steps_in Hrest.
  destruct (w _ (conversations_replies channel ts)) as [?|response] eqn:?;
    [discriminate|].
  run_steps_in Hrest.
  destruct (replies_messages response) as [|first others] eqn:?;
    [discriminate|].
  run_steps_in Hrest.
  destruct (first !! "ts") as [thread_ts|] eqn:?; [|discriminate].
  run_steps_in Hrest.
  destruct (w _ (chat_postMessage channel thread_ts "生成なう"))
    as [?|posted] eqn:?; [discriminate|].
  run_steps_in Hrest. rewrite Hchannel in Hrest. run_steps_in Hrest.
  rewrite Hts in Hrest. run_steps_in Hrest.
  destruct (w _ (conversations_replies channel
                   (default ts (event !! "thread_ts"))))
    as [?|fetched] eqn:?; [discriminate|].
  run_steps_in Hrest.
  destruct (run _ _ (for_each_message _ _ _)) as [[?|messages] h'] eqn:Hloop;
    [discriminate|].
  destruct (for_each_message_pure BOT_NAME (replies_messages fetched)
              ([] ++ [prompt_message "system" SYSTEM_PROMPT]))
    as [outcome Hpure].
  rewrite Hpure in Hloop. injection Hloop as -> <-.
  match type of Hrest with
  | context [run w ?h0 _] => specialize (Hpure w h0)
  end.
  apply for_each_message_returns in Hpure as (authored & Hauthored & ->).
  run_cases_in Hrest; try discriminate.
  injection Hrest as <-. cbn [app].
  repeat eexists; eassumption.
Qed.

(** X19: on the happy path the completion request names the model
    ["gpt-3.5-turbo"], and its messages are the system message followed by
    the prompt messages of the thread as returned by the fetch made after
    the placeholder was posted. *)
Theorem prompt_is_thread_after_placeholder (t : list entry) :
  fst (run w [] (should_run_completion BOT_NAME event)) = inr true ->
  run w [] (run_completion BOT_NAME event) = (inr tt, t) ->
  exists posting channel root fetched authored completion,
    t !! 2 = Some posting /\ method posting = "chat_postMessage"
    /\ t !! 3 = Some (Entry (conversations_replies channel root) (inr fetched))
    /\ Forall2 authored_by (replies_messages fetched) authored
    /\ t !! 4
       = Some (Entry (ChatCompletion_create "gpt-3.5-turbo"
                        (prompt_message "system" SYSTEM_PROMPT
                         :: map (prompt_of BOT_NAME) authored))
                     (inr completion)).
Proof.
  intros Htriggered Hrun.
  destruct (happy_path_prompt _ Htriggered Hrun)
    as (channel & ts & thread & response & first & others & thread_ts & posted
        & fetched & authored & completion & deleted & said & text
        & Hchannel & Hts & Hresponse & Hfirst & Hauthored & ->).
  eexists _, channel, _, fetched, authored, completion.
  repeat split; try reflexivity. exact Hauthored.
Qed.

(** X20: on the happy path the thread root the placeholder and the answer
    are posted to is the ["ts"] of the first message returned by the second
    fetch, and that fetch is made by the ["ts"] of the event itself, also
    when the event has a ["thread_ts"]. *)
Theorem thread_root_from_second_fetch (t : list entry) :
  fst (run w [] (should_run_completion BOT_NAME event)) = inr true ->
  run w [] (run_completion BOT_NAME event) = (inr tt, t) ->
  exists channel ts response first others thread_ts posted said text,
    event !! "channel" = Some channel /\ event !! "ts" = Some ts
    /\ t !! 1 = Some (Entry (conversations_replies channel ts) (inr response))
    /\ replies_messages response = first :: others
    /\ first !! "ts" = Some thread_ts
    /\ t !! 2 = Some (Entry (chat_postMessage channel thread_ts "生成なう")
                            (inr posted))
    /\ t !! 6 = Some (Entry (say text channel thread_ts) (inr said)).
Proof.
  intros Htriggered Hrun.
  destruct (happy_path_prompt _ Htriggered Hrun)
    as (channel & ts & thread & response & first & others & thread_ts & posted
        & fetched & authored & completion & deleted & said & text
        & Hchannel & Hts & Hresponse & Hfirst & Hauthored & ->).
  exists channel, ts, response, first, others, thread_ts, posted, said, text.
  repeat split; assumption || reflexivity.
Qed.

(** X21: when a triggered handler raises after the call that posts the
    placeholder and before the completion request, its calls end with that
    post, which failed, or with the third fetch: once posted, the
    placeholder is neither deleted nor followed by an answer. *)
Theorem failure_before_request (e : exn) (t : list entry) :
  fst (run w [] (should_run_completion BOT_NAME event)) = inr true ->
  run w [] (run_completion BOT_NAME event) = (inl e, t) ->
  In "chat_postMessage" (methods t) ->
  ~ In "ChatCompletion.create" (methods t) ->
  (methods t = ["conversations_replies"; "conversations_replies";
                "chat_postMessage"]
   /\ outcomes t = [true; true; false])
  \/ (methods t = ["conversations_replies"; "conversations_replies";
                   "chat_postMessage"; "conversations_replies"]
      /\ (outcomes t = [true; true; true; false]
          \/ outcomes t = [true; true; true; true])).
Proof.
  intros Htriggered Hrun Hposted Hrequested.
  destruct (triggered_run _ _ _ _ _ Htriggered Hrun)
    as (channel & ts & thread & Hchannel & Hts & Hrest).
  clear Hrun. unfold create_messages in Hrest.
  run_cases_in Hrest; try discriminate;
    injection Hrest as <- <-;
    try (exfalso; cbn in Hposted; intuition discriminate);
    try (exfalso; apply Hrequested; cbn; tauto);
    cbn; auto 6.
Qed.

End OrchestratorEdges.

Lemma delete_prefix_only_deletes_witness :
  String.length (delete_prefix example_bot "<@UBOT> a b")
  <= String.length "<@UBOT> a b"
  /\ forall c, occurs c (delete_prefix example_bot "<@UBOT> a b") = true ->
               occurs c "<@UBOT> a b" = true.
Proof. apply (delete_prefix_only_deletes example_bot "<@UBOT> a b"). Defined.

Lemma handler_stops_at_filter_witness :
  run happy_world [] (run_completion example_bot edited_event)
  = (match fst (run happy_world []
                  (should_run_completion example_bot edited_event)) with
     | inl e => inl e
     | inr _ => inr tt
     end,
     snd (run happy_world [] (should_run_completion example_bot edited_event))).
Proof.
  apply (handler_stops_at_filter example_bot happy_world edited_event).
  vm_compute. discriminate.
Defined.

Lemma prompt_is_thread_after_placeholder_witness :
  exists posting channel root fetched authored completion,
    snd (run happy_world [] (run_completion example_bot example_event)) !! 2
    = Some posting
    /\ method posting = "chat_postMessage"
    /\ snd (run happy_world [] (run_completion example_bot example_event)) !! 3
       = Some (Entry (conversations_replies channel root) (inr fetched))
    /\ Forall2 authored_by (replies_messages fetched) authored
    /\ snd (run happy_world [] (run_completion example_bot example_event)) !! 4
       = Some (Entry (ChatCompletion_create "gpt-3.5-turbo"
                        (prompt_message "system" SYSTEM_PROMPT
                         :: map (prompt_of example_bot) authored))
                     (inr completion)).
Proof.
  apply (prompt_is_thread_after_placeholder example_bot happy_world
           example_event).
  - vm_compute. reflexivity.
  - vm_compute. reflexivity.
Defined.

Lemma thread_root_from_second_fetch_witness :
  reply_event !! "thread_ts" = Some "1.0"
  /\ exists channel ts response first others thread_ts posted said text,
       reply_event !! "channel" = Some channel
       /\ reply_event !! "ts" = Some ts
       /\ snd (run happy_world [] (run_completion example_bot reply_event)) !! 1
          = Some (Entry (conversations_replies channel ts) (inr response))
       /\ replies_messages response = first :: others
       /\ first !! "ts" = Some thread_ts
       /\ snd (run happy_world [] (run_completion example_bot reply_event)) !! 2
          = Some (Entry (chat_postMessage channel thread_ts "生成なう")
                        (inr posted))
       /\ snd (run happy_world [] (run_completion example_bot reply_event)) !! 6
          = Some (Entry (say text channel thread_ts) (inr said)).
Proof.
  split; [vm_compute; reflexivity|].
  apply (thread_root_from_second_fetch example_bot happy_world reply_event).
  - vm_compute. reflexivity.
  - vm_compute. reflexivity.
Defined.

Lemma failure_before_request_witness :
  (methods (snd (run stranding_world []
                   (run_completion example_bot example_event)))
   = ["conversations_replies"; "conversations_replies"; "chat_postMessage"]
   /\ outcomes (snd (run stranding_world []
                       (run_completion example_bot example_event)))
      = [true; true; false])
  \/ (methods (snd (run stranding_world []
                      (run_completion example_bot example_event)))
      = ["conversations_replies"; "conversations_replies";
         "chat_postMessage"; "conversations_replies"]
      /\ (outcomes (snd (run stranding_world []
                           (run_completion example_bot example_event)))
          = [true; true; true; false]
          \/ outcomes (snd (run stranding_world []
                              (run_completion example_bot example_event)))
             = [true; true; true; true])).
Proof.
  apply (failure_before_request example_bot stranding_world example_event
           (KeyError "user")).
  - vm_compute. reflexivity.
  - vm_compute. reflexivity.
  - vm_compute. intuition.
  - vm_compute. intuition discriminate.
Defined.
